(** * lint-gofmt.py: a shallow embedding and its properties

    The script is Python 2 (it uses the [print] statement).  It has no
    functions of its own: it globs two patterns, runs [gofmt -s -l] on every
    match that ends in [.go], prints what the tool lists and leaves with
    status 1 when a file is listed or the tool exits with an error status,
    with status 0 otherwise.

    Everything the script does is an effect (glob, child process, standard
    output, process exit), so the embedding is a small monad that carries
    the effects as a log, the soft-space flag of the [print] statement as
    state, and Python exceptions as results. *)

From Stdlib Require Import List String Ascii ZArith Bool Arith Lia Permutation.
Import ListNotations.

Local Open Scope string_scope.
Local Open Scope list_scope.
Local Open Scope Z_scope.

(** ** The fragment of Python 2 the script runs on *)

Module Py2.

(** What running a child process to its end gives [subprocess]: the exit
    status and the captured standard output, or no child at all when the
    program cannot be started (the executable is missing, say). *)
Inductive ProcessResult : Type :=
| Exited (returncode : Z) (output : string)
| ExecFailed.

(** The world outside the script: what [glob.glob] returns for a pattern and
    how the child started with a given argument vector ends.  Both are fixed
    during one run. *)
Record Env : Type := {
  glob_glob : string -> list string;
  run_process : list string -> ProcessResult
}.

(** The exceptions that can occur. [exit] raises [SystemExit];
    [subprocess.check_output] raises [CalledProcessError] on a non-zero exit
    status and [OSError] when the child cannot be started. *)
Inductive Exception : Type :=
| SystemExit (code : Z)
| CalledProcessError (returncode : Z) (output : string)
| OSError.

(** Observable effects, in the order they happen. *)
Inductive Event : Type :=
| Glob (pattern : string)
| Spawn (argv : list string)
| Stdout (text : string)
| Traceback (e : Exception).

Inductive Result (A : Type) : Type :=
| Value (a : A)
| Raise (e : Exception).
Arguments Value {A} a.
Arguments Raise {A} e.

(** A computation reads the environment and the soft-space flag of
    [sys.stdout], and gives the effects it performed, the new flag and a
    value or an exception. *)
Definition Py (A : Type) : Type :=
  Env -> bool -> list Event * bool * Result A.

Definition ret {A} (a : A) : Py A :=
  fun _ ss => ([], ss, Value a).

Definition bind {A B} (m : Py A) (f : A -> Py B) : Py B :=
  fun env ss =>
    match m env ss with
    | (l1, ss1, Value a) =>
        match f a env ss1 with
        | (l2, ss2, r) => (l1 ++ l2, ss2, r)
        end
    | (l1, ss1, Raise e) => (l1, ss1, Raise e)
    end.

Definition raise {A} (e : Exception) : Py A :=
  fun _ ss => ([], ss, Raise e).

(** [try: body except <handler's domain>: handler].  An exception the
    handler does not take goes on. *)
Definition try_except {A} (body : Py A) (handler : Exception -> option (Py A))
  : Py A :=
  fun env ss =>
    match body env ss with
    | (l1, ss1, Value a) => (l1, ss1, Value a)
    | (l1, ss1, Raise e) =>
        match handler e with
        | Some h =>
            match h env ss1 with
            | (l2, ss2, r) => (l1 ++ l2, ss2, r)
            end
        | None => (l1, ss1, Raise e)
        end
    end.

Definition emit (e : Event) : Py unit :=
  fun _ ss => ([e], ss, Value tt).

Definition get_softspace : Py bool :=
  fun _ ss => ([], ss, Value ss).

Definition set_softspace (b : bool) : Py unit :=
  fun _ _ => ([], b, Value tt).

Declare Scope py_scope.
Delimit Scope py_scope with py.
Notation "x <- m ;; k" := (bind m (fun x => k))
  (at level 61, m at next level, right associativity) : py_scope.
Notation "m ;; k" := (bind m (fun _ => k))
  (at level 61, right associativity) : py_scope.
Local Open Scope py_scope.

(** [for x in xs: s = body(x, s)] *)
Fixpoint for_in {A S} (xs : list A) (body : A -> S -> Py S) (s : S) : Py S :=
  match xs with
  | [] => ret s
  | x :: xs' => s' <- body x s ;; for_in xs' body s'
  end.

(** *** Strings *)

Definition nl : string := String "010"%char EmptyString.
Definition dquote : string := String "034"%char EmptyString.

(** [s.endswith(suffix)] *)
Definition endswith (s suffix : string) : bool :=
  (String.length suffix <=? String.length s)%nat
  && String.eqb
       (substring (String.length s - String.length suffix)
                  (String.length suffix) s)
       suffix.

(** [needle in haystack] *)
Fixpoint contains (haystack needle : string) : bool :=
  prefix needle haystack
  || match haystack with
     | EmptyString => false
     | String _ h' => contains h' needle
     end.

(** C [isspace] in the C locale. *)
Definition isspace (c : ascii) : bool :=
  let n := nat_of_ascii c in
  ((9 <=? n) && (n <=? 13))%nat || (n =? 32)%nat.

Fixpoint last_char (s : string) : option ascii :=
  match s with
  | EmptyString => None
  | String c EmptyString => Some c
  | String _ s' => last_char s'
  end.

(** The flag a [print] item leaves behind: set, unless the string written ends
    in a whitespace character other than the space. *)
Definition softspace_after (s : string) : bool :=
  match last_char s with
  | None => true
  | Some c => negb (isspace c) || Ascii.eqb c " "%char
  end.

(** *** The [print] statement *)

(** One item of a [print] statement: a space first when the flag is set,
    then the string. *)
Definition print_item (s : string) : Py unit :=
  ss <- get_softspace ;;
  set_softspace false ;;
  (if ss then emit (Stdout " ") else ret tt) ;;
  emit (Stdout s) ;;
  set_softspace (softspace_after s).

(** The end of a [print] statement that has no trailing comma. *)
Definition print_newline : Py unit :=
  emit (Stdout nl) ;; set_softspace false.

(** [print s,] *)
Definition print_comma (s : string) : Py unit := print_item s.

(** [print s] *)
Definition print (s : string) : Py unit := print_item s ;; print_newline.

(** *** Library calls *)

(** [glob.glob(pattern)] *)
Definition glob (pattern : string) : Py (list string) :=
  fun env ss => ([Glob pattern], ss, Value (glob_glob env pattern)).

(** [subprocess.check_output(argv)] *)
Definition check_output (argv : list string) : Py string :=
  fun env ss =>
    ([Spawn argv], ss,
     match run_process env argv with
     | Exited rc out =>
         if rc =? 0 then Value out else Raise (CalledProcessError rc out)
     | ExecFailed => Raise OSError
     end).

(** [exit(code)] *)
Definition exit {A} (code : Z) : Py A := raise (SystemExit code).

(** *** The interpreter around the script *)

Inductive Ending : Type :=
| Exit (code : Z)
| Uncaught (e : Exception).

Record Run : Type := { log : list Event; ending : Ending }.

(** The exit status the parent process sees: an uncaught exception ends the
    interpreter with status 1. *)
Definition exit_code (r : Run) : Z :=
  match ending r with
  | Exit c => c
  | Uncaught _ => 1
  end.

(** Running a script file.  When the script ends, by its last statement, by
    [SystemExit] or by another exception, the interpreter first ends a line
    left open on standard output (the soft-space flag), then either leaves
    with the status or prints the traceback and leaves with status 1. *)
Definition python (script : Py unit) (env : Env) : Run :=
  match script env false with
  | (l, ss, r) =>
      let flush := if ss then [Stdout nl] else [] in
      match r with
      | Value _ => {| log := l ++ flush; ending := Exit 0 |}
      | Raise (SystemExit c) => {| log := l ++ flush; ending := Exit c |}
      | Raise e => {| log := l ++ flush ++ [Traceback e]; ending := Uncaught e |}
      end
  end.

(** *** Reading a log *)

(** Everything written to standard output. *)
Fixpoint stdout_of (l : list Event) : string :=
  match l with
  | [] => EmptyString
  | Stdout s :: l' => (s ++ stdout_of l')%string
  | _ :: l' => stdout_of l'
  end.

(** The strings written to standard output, one per write. *)
Fixpoint stdout_writes (l : list Event) : list string :=
  match l with
  | [] => []
  | Stdout s :: l' => s :: stdout_writes l'
  | _ :: l' => stdout_writes l'
  end.

(** The argument vectors of the children started. *)
Fixpoint spawned (l : list Event) : list (list string) :=
  match l with
  | [] => []
  | Spawn argv :: l' => argv :: spawned l'
  | _ :: l' => spawned l'
  end.

End Py2.

(** ** The script *)

Module LintGofmt.
Import Py2.
Local Open Scope py_scope.

Definition remediation : string :=
  ("Reformat the files listed above with " ++ dquote ++ "gofmt -s -w"
   ++ dquote ++ " and try again.")%string.

Definition success : string := "All files pass gofmt.".

(** [['*.go', 'cmd/dbmate/*.go']] *)
Definition patterns : list string := ["*.go"; "cmd/dbmate/*.go"].

(** [['gofmt', '-s', '-l', filename]] *)
Definition gofmt_argv (filename : string) : list string :=
  ["gofmt"; "-s"; "-l"; filename].

(** Lines 5 to 8: [files = []], then [files.extend(glob.glob(p))] for every
    pattern. *)
Definition files : Py (list string) :=
  for_in patterns (fun p files => m <- glob p ;; ret (files ++ m)) [].

(** Lines 13 to 20, the body of the loop over [files]; the value is
    [exit_status] after the iteration. *)
Definition check (filename : string) (exit_status : Z) : Py Z :=
  if endswith filename ".go" then
    try_except
      (out <- check_output (gofmt_argv filename) ;;
       if negb (String.eqb out EmptyString) then
         print_comma out ;; ret 1
       else ret exit_status)
      (fun e =>
         match e with
         | CalledProcessError _ _ => Some (ret 1)
         | _ => None
         end)
  else ret exit_status.

(** The whole script. *)
Definition main : Py unit :=
  files <- files ;;
  exit_status <- for_in files check 0 ;;
  (if negb (exit_status =? 0) then
     print remediation ;; exit exit_status
   else ret tt) ;;
  print success ;;
  exit 0.

Definition run (env : Env) : Run := python main env.

End LintGofmt.

(** ** What a run is compared with *)

Module Spec.
Import Py2 LintGofmt.

Section WithEnv.
Variable env : Env.

(** The paths the two patterns match, in the order the script collects
    them. *)
Definition matched : list string := flat_map (glob_glob env) patterns.

Definition is_go (filename : string) : bool := endswith filename ".go".

(** The candidate files: the matched paths that pass the suffix test. *)
Definition candidates : list string := filter is_go matched.

(** How the check command ends on a file. *)
Definition outcome (filename : string) : ProcessResult :=
  run_process env (gofmt_argv filename).

(** The files checked before the run stops: all of them, or those up to
    and including the first one the command cannot be started on. *)
Fixpoint until_oserror (fs : list string) : list string :=
  match fs with
  | [] => []
  | f :: fs' =>
      f :: match outcome f with
           | ExecFailed => []
           | Exited _ _ => until_oserror fs'
           end
  end.

(** The non-empty outputs of the checks that complete with status 0. *)
Definition report (f : string) : list string :=
  match outcome f with
  | Exited rc out =>
      if (rc =? 0) && negb (String.eqb out EmptyString) then [out] else []
  | ExecFailed => []
  end.

Definition reports (fs : list string) : list string := flat_map report fs.
End WithEnv.

(** The check completes and lists something. *)
Definition listed (r : ProcessResult) : bool :=
  match r with
  | Exited rc out => (rc =? 0) && negb (String.eqb out EmptyString)
  | ExecFailed => false
  end.

(** The check exits with an error status. *)
Definition error_status (r : ProcessResult) : bool :=
  match r with
  | Exited rc _ => negb (rc =? 0)
  | ExecFailed => false
  end.

(** The check command cannot be started. *)
Definition not_started (r : ProcessResult) : bool :=
  match r with
  | Exited _ _ => false
  | ExecFailed => true
  end.

(** The check ends abnormally. *)
Definition abnormal (r : ProcessResult) : bool :=
  error_status r || not_started r.

Definition violation (r : ProcessResult) : bool := listed r || abnormal r.

(** What a sequence of [print out,] statements writes, from a given
    soft-space flag, and the flag it leaves. *)
Fixpoint printed (ss : bool) (outs : list string) : string :=
  match outs with
  | [] => EmptyString
  | o :: outs' =>
      ((if ss then " " else EmptyString) ++ o
       ++ printed (softspace_after o) outs')%string
  end.

Fixpoint softspace_end (ss : bool) (outs : list string) : bool :=
  match outs with
  | [] => ss
  | o :: outs' => softspace_end (softspace_after o) outs'
  end.

Fixpoint concat_all (outs : list string) : string :=
  match outs with
  | [] => EmptyString
  | o :: outs' => (o ++ concat_all outs')%string
  end.

(** The two terminal lines, as [print] writes them. *)
Definition remediation_line : string := (remediation ++ nl)%string.
Definition success_line : string := (success ++ nl)%string.

Fixpoint argv_eqb (a b : list string) : bool :=
  match a, b with
  | [], [] => true
  | x :: a', y :: b' => String.eqb x y && argv_eqb a' b'
  | _, _ => false
  end.

Definition argv_dec : forall a b : list string, {a = b} + {a <> b} :=
  list_eq_dec string_dec.

(** The same world, but for the way the check command ends on one file. *)
Definition with_outcome (env : Env) (filename : string) (r : ProcessResult)
  : Env :=
  {| glob_glob := glob_glob env;
     run_process := fun argv =>
       if argv_eqb argv (gofmt_argv filename) then r
       else run_process env argv |}.

(** Whether an effect can change a file.  Globbing reads directory entries
    and printing touches no file.  [gofmt] takes every argument that begins
    with [-] as a flag, wherever the caller meant it as a file name; of its
    flags, [-s] and [-l] change nothing, while others do ([-w] rewrites the
    operands, [-cpuprofile=FILE] creates [FILE]).  So a [gofmt] child counts
    as harmless only when each argument that begins with [-] is [-s] or
    [-l]; what another program does is not known, so it counts as able to
    write. *)
Definition taken_as_flag (arg : string) : bool := prefix "-" arg.

Definition harmless_arg (arg : string) : bool :=
  negb (taken_as_flag arg) || String.eqb arg "-s" || String.eqb arg "-l".

Definition may_write (e : Event) : bool :=
  match e with
  | Glob _ => false
  | Spawn [] => true
  | Spawn (prog :: args) =>
      negb (String.eqb prog "gofmt") || negb (forallb harmless_arg args)
  | Stdout _ => false
  | Traceback _ => false
  end.

(** The effects the script is expected to have. *)
Definition expected_effect (env : Env) (e : Event) : Prop :=
  match e with
  | Glob p => In p patterns
  | Spawn argv =>
      exists f, In f (candidates env) /\ argv = gofmt_argv f
  | Stdout _ => True
  | Traceback ex => ex = OSError
  end.

(** *** Two statements of the specification, as they are written *)

(** When a check lists something the run fails, the listing is in the
    output, and the output is the listings followed by the remediation
    line. *)
Definition report_as_stated (env : Env) : Prop :=
  ((exists f, In f (candidates env) /\ listed (outcome env f) = true) ->
   exit_code (run env) <> 0
   /\ (forall out, In out (reports env (candidates env)) ->
         contains (stdout_of (log (run env))) out = true)
   /\ stdout_of (log (run env)) =
        (concat_all (reports env (candidates env)) ++ remediation_line)%string)
  /\ (exit_code (run env) = 0 -> stdout_of (log (run env)) = success_line).

(** Every candidate is checked once, whatever happened before. *)
Definition all_checked_once (env : Env) : Prop :=
  spawned (log (run env)) = map gofmt_argv (candidates env).

(** Two ways for the check command to end that the script cannot tell
    apart: the same one, or two error statuses. *)
Definition same_to_script (r1 r2 : ProcessResult) : Prop :=
  r1 = r2 \/ (error_status r1 = true /\ error_status r2 = true).

Definition is_glob (e : Event) : bool :=
  match e with
  | Glob _ => true
  | _ => false
  end.

(** The writes of a sequence of [print out,] statements, from a given
    soft-space flag. *)
Fixpoint writes (ss : bool) (outs : list string) : list string :=
  match outs with
  | [] => []
  | o :: outs' =>
      (if ss then [" "%string] else []) ++ o :: writes (softspace_after o) outs'
  end.

(** What printing one listing adds to standard output, wherever it comes:
    the listing, and the space before the next item when the listing leaves
    its line open. *)
Definition listing_writes (o : string) : list string :=
  o :: (if softspace_after o then [" "%string] else []).






(** The same world, but for a path the globs no longer give. *)
Definition without_path (env : Env) (filename : string) : Env :=
  {| glob_glob := fun p =>
       filter (fun g => negb (String.eqb g filename)) (glob_glob env p);
     run_process := run_process env |}.

(** *** Three more statements of the specification, as they are written *)


(** Two runs over the same files, in whatever order the globs give them,
    and with the same behaviour of the check command, have the same status
    and the same printed report up to that order. *)
Definition rerun_as_stated (env1 env2 : Env) : Prop :=
  Forall (fun f => outcome env1 f = outcome env2 f) (candidates env1) ->
  Permutation (matched env1) (matched env2) ->
  exit_code (run env1) = exit_code (run env2)
  /\ Permutation (stdout_writes (log (run env1)))
                 (stdout_writes (log (run env2))).

(** Nothing a run does can change a file. *)
Definition read_only_as_stated (env : Env) : Prop :=
  Forall (fun e => may_write e = false) (log (run env)).

End Spec.

(** ** Concrete worlds *)

Module Examples.
Import Py2 LintGofmt Spec.

Fixpoint lookup (table : list (string * ProcessResult)) (argv : list string)
  (default : ProcessResult) : ProcessResult :=
  match table with
  | [] => default
  | (f, r) :: table' =>
      if argv_eqb argv (gofmt_argv f) then r else lookup table' argv default
  end.

(** A working directory whose two globs give [top] and [cmd], and a tool
    that ends as the table says. *)
Definition world (top cmd : list string)
  (table : list (string * ProcessResult)) (default : ProcessResult) : Env :=
  {| glob_glob := fun p =>
       if String.eqb p "*.go" then top
       else if String.eqb p "cmd/dbmate/*.go" then cmd
       else [];
     run_process := fun argv => lookup table argv default |}.

Definition line (s : string) : string := (s ++ nl)%string.

(** No Go file at all. *)
Definition env_empty : Env := world [] [] [] (Exited 0 EmptyString).

(** Every file is formatted. *)
Definition env_clean : Env :=
  world ["main.go"; "util.go"] ["cmd/dbmate/main.go"] []
        (Exited 0 EmptyString).

(** Two files are listed, one makes the tool exit with status 2, one is
    formatted, and one matched path is not a Go file. *)
Definition env_mixed : Env :=
  world ["main.go"; "README.md"; "util.go"; "bad.go"] ["cmd/dbmate/main.go"]
        [("util.go", Exited 0 (line "util.go"));
         ("bad.go", Exited 2 EmptyString);
         ("README.md", Exited 0 (line "README.md"));
         ("cmd/dbmate/main.go", Exited 0 (line "cmd/dbmate/main.go"))]
        (Exited 0 EmptyString).

(** [gofmt] is not installed. *)
Definition env_no_tool : Env := world ["a.go"; "b.go"] [] [] ExecFailed.

(** The first file is listed, then the tool cannot be started. *)
Definition env_launch_failure : Env :=
  world ["a.go"; "b.go"] []
        [("a.go", Exited 0 (line "a.go")); ("b.go", ExecFailed)]
        (Exited 0 EmptyString).

(** The listing does not end in a newline. *)
Definition env_no_newline : Env :=
  world ["a.go"] [] [("a.go", Exited 0 "a.go")] (Exited 0 EmptyString).

(** The tool exits with status 2 on the only file, with something on its
    standard output. *)
Definition env_error_only : Env :=
  world ["bad.go"] [] [("bad.go", Exited 2 (line "bad.go"))]
        (Exited 0 EmptyString).


(** The files of [env_launch_failure], globbed in the other order. *)
Definition env_launch_failure_reordered : Env :=
  world ["b.go"; "a.go"] []
        [("a.go", Exited 0 (line "a.go")); ("b.go", ExecFailed)]
        (Exited 0 EmptyString).

(** Two files are listed and the tool exits with status 2 on a third. *)
Definition env_two_listed : Env :=
  world ["a.go"; "b.go"; "c.go"] []
        [("a.go", Exited 0 (line "a.go")); ("b.go", Exited 2 EmptyString);
         ("c.go", Exited 0 (line "c.go"))]
        (Exited 0 EmptyString).

(** The same files, globbed in the opposite order. *)
Definition env_two_listed_reordered : Env :=
  world ["c.go"; "b.go"; "a.go"] []
        [("a.go", Exited 0 (line "a.go")); ("b.go", Exited 2 EmptyString);
         ("c.go", Exited 0 (line "c.go"))]
        (Exited 0 EmptyString).

(** A file whose name begins with a dash and ends in [.go]: the pattern
    [*.go] matches it. *)
Definition env_flag_name : Env :=
  world ["-cpuprofile=main.go"; "main.go"] [] [] (Exited 0 EmptyString).

(** A directory on a platform where file names are matched without regard
    to case: [glob.glob] gives [UTIL.GO] for [*.go], spelled as it is on
    disk, while [endswith] compares the characters. *)
Definition env_upper_case : Env :=
  world ["main.go"; "UTIL.GO"] ["cmd/dbmate/main.go"]
        [("UTIL.GO", Exited 0 (line "UTIL.GO"));
         ("cmd/dbmate/main.go", Exited 0 (line "cmd/dbmate/main.go"))]
        (Exited 0 EmptyString).

(** Both globs give the same path, and one path is just the suffix. *)
Definition env_matched_twice : Env :=
  world ["a.go"; ".go"] ["a.go"] [("a.go", Exited 0 (line "a.go"))]
        (Exited 0 EmptyString).

End Examples.

(** ** Facts on strings and logs *)

Module Py2Facts.
Import Py2.

Lemma sapp_nil_r (s : string) : (s ++ EmptyString)%string = s.
Proof. induction s as [|c s IH]; simpl; [reflexivity | now rewrite IH]. Qed.

Lemma sapp_assoc (a b c : string) :
  ((a ++ b) ++ c)%string = (a ++ (b ++ c))%string.
Proof. induction a as [|x a IH]; simpl; [reflexivity | now rewrite IH]. Qed.

Lemma length_sapp (a b : string) :
  String.length (a ++ b)%string = (String.length a + String.length b)%nat.
Proof. induction a as [|x a IH]; simpl; [reflexivity | now rewrite IH]. Qed.

Lemma substring_skip (a b : string) (k m : nat) :
  substring (String.length a + k) m (a ++ b)%string = substring k m b.
Proof. induction a as [|x a IH]; simpl; [reflexivity | exact IH]. Qed.

(** A suffix test that fits in the last part of a string only looks at that
    part. *)
Lemma endswith_app (a b suffix : string) :
  (String.length suffix <= String.length b)%nat ->
  endswith (a ++ b)%string suffix = endswith b suffix.
Proof.
  intros Hle. unfold endswith. rewrite length_sapp.
  replace (String.length a + String.length b - String.length suffix)%nat
    with (String.length a + (String.length b - String.length suffix))%nat
    by lia.
  rewrite substring_skip.
  destruct (Nat.leb_spec (String.length suffix) (String.length b)); [|lia].
  destruct (Nat.leb_spec (String.length suffix)
                         (String.length a + String.length b)); [|lia].
  reflexivity.
Qed.

Lemma stdout_of_app (l1 l2 : list Event) :
  stdout_of (l1 ++ l2) = (stdout_of l1 ++ stdout_of l2)%string.
Proof.
  induction l1 as [|e l1 IH]; simpl; [reflexivity|].
  destruct e; try exact IH. now rewrite IH, sapp_assoc.
Qed.

Lemma spawned_app (l1 l2 : list Event) :
  spawned (l1 ++ l2) = spawned l1 ++ spawned l2.
Proof.
  induction l1 as [|e l1 IH]; simpl; [reflexivity|].
  destruct e; simpl; now rewrite IH.
Qed.

Lemma prefix_refl_app (a b : string) : prefix a (a ++ b)%string = true.
Proof.
  induction a as [|x a IH]; simpl.
  - now destruct b.
  - destruct (ascii_dec x x); [exact IH | congruence].
Qed.

Lemma contains_app (a b c : string) : contains (a ++ b ++ c)%string b = true.
Proof.
  induction a as [|x a IH].
  - change (EmptyString ++ b ++ c)%string with (b ++ c)%string.
    pose proof (prefix_refl_app b c) as H.
    destruct (b ++ c)%string; cbn [contains]; rewrite H; reflexivity.
  - simpl. rewrite IH. apply orb_true_r.
Qed.

Lemma contains_skip (a b needle : string) :
  contains b needle = true -> contains (a ++ b)%string needle = true.
Proof.
  intros H. induction a as [|x a IH]; [exact H|].
  simpl. rewrite IH. apply orb_true_r.
Qed.

Lemma stdout_writes_app (l1 l2 : list Event) :
  stdout_writes (l1 ++ l2) = stdout_writes l1 ++ stdout_writes l2.
Proof.
  induction l1 as [|e l1 IH]; simpl; [reflexivity|].
  destruct e; simpl; now rewrite IH.
Qed.

Lemma substring_all (s : string) : substring 0 (String.length s) s = s.
Proof. induction s as [|c s IH]; simpl; [reflexivity | now rewrite IH]. Qed.

(** A string is its first [n] characters followed by the rest. *)
Lemma substring_split (s : string) :
  forall n, (n <= String.length s)%nat ->
            s = (substring 0 n s
                 ++ substring n (String.length s - n) s)%string.
Proof.
  induction s as [|c s IH]; intros n Hn.
  - simpl in Hn. assert (n = 0%nat) by lia. subst n. reflexivity.
  - destruct n as [|n].
    + cbn [substring String.length Nat.sub append].
      now rewrite substring_all.
    + simpl in Hn. cbn [substring String.length Nat.sub append].
      f_equal. apply IH. lia.
Qed.

(** [s.endswith(suffix)] holds exactly for the strings made of something
    followed by the suffix. *)
Lemma endswith_iff (s suffix : string) :
  endswith s suffix = true <-> exists p, s = (p ++ suffix)%string.
Proof.
  split.
  - unfold endswith. intros H. apply andb_true_iff in H as [Hle Heq].
    apply Nat.leb_le in Hle. apply String.eqb_eq in Heq.
    exists (substring 0 (String.length s - String.length suffix) s).
    pose proof (substring_split s (String.length s - String.length suffix))
      as Hs.
    replace (String.length s - (String.length s - String.length suffix))%nat
      with (String.length suffix) in Hs by lia.
    rewrite Heq in Hs. apply Hs. lia.
  - intros [p ->]. rewrite endswith_app by lia.
    unfold endswith. rewrite Nat.leb_refl, Nat.sub_diag, substring_all.
    now rewrite String.eqb_refl.
Qed.

End Py2Facts.

(** ** The loop and the run, unfolded *)

Module LintGofmtFacts.
Import Py2 Py2Facts LintGofmt Spec.

Section WithEnv.
Variable env : Env.

(** The result of one iteration, by the suffix test and the way the check
    command ends. *)
Lemma check_unfold (filename : string) (exit_status : Z) (ss : bool) :
  check filename exit_status env ss =
  if is_go filename then
    match outcome env filename with
    | Exited rc out =>
        if rc =? 0 then
          if String.eqb out EmptyString then
            ([Spawn (gofmt_argv filename)], ss, Value exit_status)
          else
            (Spawn (gofmt_argv filename)
               :: (if ss then [Stdout " "] else []) ++ [Stdout out],
             softspace_after out, Value 1)
        else ([Spawn (gofmt_argv filename)], ss, Value 1)
    | ExecFailed => ([Spawn (gofmt_argv filename)], ss, Raise OSError)
    end
  else ([], ss, Value exit_status).
Proof.
  unfold check, is_go, outcome.
  destruct (endswith filename ".go"); [|reflexivity].
  unfold try_except, bind, check_output.
  destruct (run_process env (gofmt_argv filename)) as [rc out|];
    [|reflexivity].
  destruct (rc =? 0); [|reflexivity].
  destruct (String.eqb out EmptyString); [reflexivity|].
  destruct ss; reflexivity.
Qed.

Lemma files_unfold (ss : bool) :
  files env ss = ([Glob "*.go"; Glob "cmd/dbmate/*.go"], ss,
                  Value (matched env)).
Proof.
  unfold files, matched, patterns. simpl. unfold bind, glob, ret. simpl.
  now rewrite app_nil_r.
Qed.

Lemma for_in_cons (f : string) (fs : list string) (st : Z) (ss : bool) :
  for_in (f :: fs) check st env ss =
  match check f st env ss with
  | (l1, ss1, Value st1) =>
      match for_in fs check st1 env ss1 with
      | (l2, ss2, r) => (l1 ++ l2, ss2, r)
      end
  | (l1, ss1, Raise e) => (l1, ss1, Raise e)
  end.
Proof. reflexivity. Qed.

Lemma report_unfold (f : string) :
  report env f =
  match outcome env f with
  | Exited rc out =>
      if (rc =? 0) && negb (String.eqb out EmptyString) then [out] else []
  | ExecFailed => []
  end.
Proof. reflexivity. Qed.

Ltac loop_step f fs st ss IH :=
  rewrite for_in_cons, check_unfold; simpl filter;
  destruct (is_go f) eqn:Hgo;
  [ pose proof (report_unfold f) as Hrep;
    unfold reports; cbn [until_oserror flat_map map];
    destruct (outcome env f) as [rc out|] eqn:Hout;
    [ destruct (rc =? 0) eqn:Hrc;
      [ destruct (String.eqb out EmptyString) eqn:Hempty |] |];
    cbn in Hrep; rewrite ?Hrep; clear Hrep
  | ];
  simpl;
  try match goal with
      | |- context [for_in fs check ?s env ?b] =>
          specialize (IH s b);
          destruct (for_in fs check s env b) as [[l2 ss2] r2]
      end.

(** The children started: one per checked file, in order. *)
Lemma loop_spawned (fs : list string) :
  forall st ss,
    spawned (fst (fst (for_in fs check st env ss))) =
    map gofmt_argv (until_oserror env (filter is_go fs)).
Proof.
  induction fs as [|f fs IH]; intros st ss; [reflexivity|].
  loop_step f fs st ss IH; simpl in *;
    rewrite ?spawned_app; simpl; try rewrite IH; try reflexivity.
  destruct ss; reflexivity.
Qed.

(** What the loop prints and the flag it leaves. *)
Lemma loop_stdout (fs : list string) :
  forall st ss,
    let checked := until_oserror env (filter is_go fs) in
    stdout_of (fst (fst (for_in fs check st env ss))) =
      printed ss (reports env checked)
    /\ snd (fst (for_in fs check st env ss)) =
         softspace_end ss (reports env checked).
Proof.
  induction fs as [|f fs IH]; intros st ss; [split; reflexivity|].
  cbv zeta in *.
  loop_step f fs st ss IH; simpl in *;
    try (destruct IH as [IH1 IH2]; split; assumption);
    try (split; reflexivity).
  destruct IH as [IH1 IH2]. split; [|exact IH2].
  destruct ss; simpl; rewrite ?stdout_of_app; simpl; now rewrite IH1.
Qed.

(** How the loop ends: with the exception of the first check that cannot
    be started, or else with the status. *)
Lemma loop_result (fs : list string) :
  forall st ss,
    snd (for_in fs check st env ss) =
    if existsb (fun f => not_started (outcome env f)) (filter is_go fs)
    then Raise OSError
    else Value (if existsb (fun f => violation (outcome env f))
                           (filter is_go fs)
                then 1 else st).
Proof.
  induction fs as [|f fs IH]; intros st ss; [reflexivity|].
  loop_step f fs st ss IH; simpl in *;
    unfold violation, abnormal, listed, error_status, not_started;
    rewrite ?Hout, ?Hrc, ?Hempty; simpl; try exact IH; try reflexivity.
  - rewrite IH. destruct (existsb _ _); [reflexivity|].
    now destruct (existsb _ _).
  - rewrite IH. destruct (existsb _ _); [reflexivity|].
    now destruct (existsb _ _).
Qed.

(** The whole run, by the way the loop ends. *)
Lemma run_unfold :
  let loop := for_in (matched env) check 0 env false in
  let l := fst (fst loop) in
  let ss := snd (fst loop) in
  let globs := [Glob "*.go"; Glob "cmd/dbmate/*.go"] in
  run env =
  if existsb (fun f => not_started (outcome env f)) (candidates env) then
    {| log := globs ++ l ++ (if ss then [Stdout nl] else [])
               ++ [Traceback OSError];
       ending := Uncaught OSError |}
  else if existsb (fun f => violation (outcome env f)) (candidates env) then
    {| log := globs ++ l ++ (if ss then [Stdout " "] else [])
               ++ [Stdout remediation; Stdout nl];
       ending := Exit 1 |}
  else
    {| log := globs ++ l ++ (if ss then [Stdout " "] else [])
               ++ [Stdout success; Stdout nl];
       ending := Exit 0 |}.
Proof.
  cbv zeta. pose proof (loop_result (matched env) 0 false) as Hr.
  fold (candidates env) in Hr.
  unfold run, python, main.
  unfold bind at 1. rewrite files_unfold.
  unfold bind at 1.
  destruct (for_in (matched env) check 0 env false) as [[l ss] r].
  simpl in Hr. simpl fst. simpl snd.
  destruct (existsb (fun f => not_started (outcome env f)) (candidates env)).
  - subst r. reflexivity.
  - subst r.
    destruct (existsb (fun f => violation (outcome env f)) (candidates env));
      destruct ss; simpl; rewrite <- ?app_assoc; reflexivity.
Qed.

(** Only the first file that cannot be checked stops the loop. *)
Lemma until_oserror_all (fs : list string) :
  existsb (fun f => not_started (outcome env f)) fs = false ->
  until_oserror env fs = fs.
Proof.
  induction fs as [|f fs IH]; simpl; [reflexivity|].
  intros H. apply orb_false_iff in H as [Hf Hfs].
  destruct (outcome env f); [|discriminate]. now rewrite IH.
Qed.

Lemma no_violation_no_report (fs : list string) :
  existsb (fun f => violation (outcome env f)) fs = false ->
  reports env fs = [].
Proof.
  induction fs as [|f fs IH]; simpl; [reflexivity|].
  intros H. apply orb_false_iff in H as [Hf Hfs].
  unfold reports in *. simpl. rewrite IH by assumption.
  unfold report. unfold violation, listed in Hf.
  destruct (outcome env f) as [rc out|]; [|reflexivity].
  apply orb_false_iff in Hf as [Hf _]. now rewrite Hf.
Qed.

Lemma not_started_violation (fs : list string) :
  existsb (fun f => not_started (outcome env f)) fs = true ->
  existsb (fun f => violation (outcome env f)) fs = true.
Proof.
  rewrite !existsb_exists. intros [f [Hin Hf]]. exists f. split; [easy|].
  unfold violation, abnormal. rewrite Hf. now rewrite !orb_true_r.
Qed.

Lemma until_oserror_incl (fs : list string) :
  incl (until_oserror env fs) fs.
Proof.
  induction fs as [|f fs IH]; simpl; [easy|].
  destruct (outcome env f).
  - intros x [->|Hx]; [now left | right; now apply IH].
  - intros x [->|[]]. now left.
Qed.

(** The exit status is 1 when some candidate violates and 0 when none
    does. *)
Lemma exit_code_eq :
  exit_code (run env) =
  if existsb (fun f => violation (outcome env f)) (candidates env)
  then 1 else 0.
Proof.
  pose proof run_unfold as H. cbv zeta in H. rewrite H. clear H.
  destruct (existsb (fun f => not_started (outcome env f)) (candidates env))
    eqn:Hns.
  - now rewrite (not_started_violation _ Hns).
  - now destruct (existsb (fun f => violation (outcome env f))
                          (candidates env)).
Qed.

Lemma run_spawned :
  spawned (log (run env)) =
  map gofmt_argv (until_oserror env (candidates env)).
Proof.
  pose proof run_unfold as H. cbv zeta in H. rewrite H. clear H.
  pose proof (loop_spawned (matched env) 0 false) as Hs.
  fold (candidates env) in Hs.
  destruct (snd (fst (for_in (matched env) check 0 env false)));
    repeat match goal with
           | |- context [if ?b then _ else _] => destruct b
           end;
    cbn [log]; simpl; rewrite !spawned_app, Hs; simpl;
    now rewrite app_nil_r.
Qed.

(** Standard output of the run, by the way it ends. *)
Lemma run_stdout :
  stdout_of (log (run env)) =
  let outs := reports env (until_oserror env (candidates env)) in
  if existsb (fun f => not_started (outcome env f)) (candidates env) then
    (printed false outs
     ++ (if softspace_end false outs then nl else EmptyString))%string
  else if existsb (fun f => violation (outcome env f)) (candidates env) then
    (printed false outs
     ++ (if softspace_end false outs then " " else EmptyString)
     ++ remediation_line)%string
  else success_line.
Proof.
  pose proof run_unfold as H. cbv zeta in H. rewrite H. clear H.
  pose proof (loop_stdout (matched env) 0 false) as Hs. cbv zeta in Hs.
  fold (candidates env) in Hs. destruct Hs as [Hs1 Hs2].
  cbv zeta.
  destruct (existsb (fun f => not_started (outcome env f)) (candidates env))
    eqn:Hns.
  - cbn [log]. simpl. rewrite stdout_of_app, Hs1, Hs2.
    destruct (softspace_end false _); simpl; reflexivity.
  - destruct (existsb (fun f => violation (outcome env f)) (candidates env))
      eqn:Hv.
    + cbn [log]. simpl. rewrite stdout_of_app, Hs1, Hs2.
      destruct (softspace_end false _); simpl;
        now rewrite ?sapp_nil_r.
    + cbn [log]. simpl. rewrite stdout_of_app, Hs1, Hs2.
      rewrite (until_oserror_all _ Hns).
      rewrite (no_violation_no_report _ Hv). simpl.
      reflexivity.
Qed.

(** The loop only starts the check command on candidates and prints. *)
Lemma loop_effects (fs : list string) :
  forall st ss,
    Forall (fun e =>
              match e with
              | Spawn argv =>
                  exists f, In f (filter is_go fs) /\ argv = gofmt_argv f
              | Stdout _ => True
              | _ => False
              end)
           (fst (fst (for_in fs check st env ss))).
Proof.
  induction fs as [|f fs IH]; intros st ss; [constructor|].
  assert (Hweak : forall l,
    Forall (fun e => match e with
                     | Spawn argv =>
                         exists g, In g (filter is_go fs)
                                   /\ argv = gofmt_argv g
                     | Stdout _ => True
                     | _ => False
                     end) l ->
    Forall (fun e => match e with
                     | Spawn argv =>
                         exists g, In g (f :: filter is_go fs)
                                   /\ argv = gofmt_argv g
                     | Stdout _ => True
                     | _ => False
                     end) l).
  { intros l. apply Forall_impl. intros [p|argv|t|ex]; try easy.
    intros [g [Hg ->]]. exists g. split; [now right | reflexivity]. }
  assert (Hspawn : exists g, In g (f :: filter is_go fs)
                             /\ gofmt_argv f = gofmt_argv g)
    by (exists f; split; [now left | reflexivity]).
  loop_step f fs st ss IH; simpl in *.
  - constructor; [exact Hspawn | now apply Hweak].
  - constructor; [exact Hspawn|]. apply Forall_app. split.
    + destruct ss; repeat constructor.
    + now apply Hweak.
  - constructor; [exact Hspawn | now apply Hweak].
  - constructor; [exact Hspawn | constructor].
  - exact IH.
Qed.

(** The writes of the loop to standard output, one by one. *)
Lemma loop_writes (fs : list string) :
  forall st ss,
    stdout_writes (fst (fst (for_in fs check st env ss))) =
    writes ss (reports env (until_oserror env (filter is_go fs))).
Proof.
  induction fs as [|f fs IH]; intros st ss; [reflexivity|].
  loop_step f fs st ss IH; simpl in *; try assumption; try reflexivity.
  destruct ss; simpl; rewrite ?stdout_writes_app; simpl; now rewrite IH.
Qed.

(** The writes of the run to standard output, by the way it ends. *)
Lemma run_writes :
  stdout_writes (log (run env)) =
  let outs := reports env (until_oserror env (candidates env)) in
  if existsb (fun f => not_started (outcome env f)) (candidates env) then
    writes false outs ++ (if softspace_end false outs then [nl] else [])
  else if existsb (fun f => violation (outcome env f)) (candidates env) then
    writes false outs
    ++ (if softspace_end false outs then [" "%string] else [])
    ++ [remediation; nl]
  else [success; nl].
Proof.
  pose proof run_unfold as H. cbv zeta in H. rewrite H. clear H.
  pose proof (loop_writes (matched env) 0 false) as Hw.
  pose proof (loop_stdout (matched env) 0 false) as Hs. cbv zeta in Hs.
  fold (candidates env) in Hw, Hs. destruct Hs as [_ Hs].
  cbv zeta.
  destruct (existsb (fun f => not_started (outcome env f)) (candidates env))
    eqn:Hns.
  - cbn [log]. simpl. rewrite !stdout_writes_app, Hw, Hs.
    destruct (softspace_end false _); simpl; now rewrite ?app_nil_r.
  - destruct (existsb (fun f => violation (outcome env f)) (candidates env))
      eqn:Hv; cbn [log]; simpl; rewrite !stdout_writes_app, Hw, Hs.
    + destruct (softspace_end false _); reflexivity.
    + rewrite (until_oserror_all _ Hns), (no_violation_no_report _ Hv).
      reflexivity.
Qed.

(** The paths that fail the suffix test leave nothing in the loop. *)
Lemma for_in_candidates (fs : list string) :
  forall st ss,
    for_in fs check st env ss = for_in (filter is_go fs) check st env ss.
Proof.
  induction fs as [|f fs IH]; intros st ss; [reflexivity|].
  simpl filter. destruct (is_go f) eqn:Hgo.
  - rewrite !for_in_cons.
    destruct (check f st env ss) as [[l1 ss1] [st1|e]]; [|reflexivity].
    now rewrite IH.
  - rewrite for_in_cons, check_unfold, Hgo, IH.
    now destruct (for_in (filter is_go fs) check st env ss) as [[l2 ss2] r].
Qed.

End WithEnv.

(** What [print out,] writes for outputs that end their line is the outputs
    one after the other. *)
Lemma printed_lines (outs : list string) :
  forallb (fun o => negb (softspace_after o)) outs = true ->
  printed false outs = concat_all outs /\ softspace_end false outs = false.
Proof.
  induction outs as [|o outs IH]; simpl; [easy|].
  intros H. apply andb_true_iff in H as [Ho Houts].
  apply negb_true_iff in Ho. rewrite Ho.
  destruct (IH Houts) as [IH1 IH2]. now rewrite IH1, IH2.
Qed.

(** Every item printed is in the output, as it is. *)
Lemma printed_contains (outs : list string) :
  forall ss rest o,
    In o outs -> contains (printed ss outs ++ rest)%string o = true.
Proof.
  induction outs as [|o' outs IH]; intros ss rest o Hin; [easy|].
  simpl. rewrite !sapp_assoc. destruct Hin as [->|Hin].
  - apply contains_app.
  - apply contains_skip, contains_skip. now apply IH.
Qed.

(** Two worlds that agree on the candidates give the same loop. *)
Lemma for_in_ext (env1 env2 : Env) (fs : list string) :
  Forall (fun f => outcome env1 f = outcome env2 f) (filter is_go fs) ->
  forall st ss,
    for_in fs check st env1 ss = for_in fs check st env2 ss.
Proof.
  induction fs as [|f fs IH]; intros Hagree st ss; [reflexivity|].
  rewrite !for_in_cons, !check_unfold. simpl in Hagree.
  destruct (is_go f).
  - inversion Hagree as [|? ? Hf Hfs]; subst. rewrite <- Hf.
    destruct (outcome env1 f) as [rc out|]; [|reflexivity].
    destruct (rc =? 0); [destruct (String.eqb out EmptyString)|];
      now rewrite (IH Hfs).
  - now rewrite (IH Hagree).
Qed.

Lemma existsb_agree {A} (p q : A -> bool) (l : list A) :
  Forall (fun x => p x = q x) l -> existsb p l = existsb q l.
Proof.
  induction 1 as [|x l Hx Hl IH]; simpl; [reflexivity | now rewrite Hx, IH].
Qed.

Lemma run_ext (env1 env2 : Env) :
  map (glob_glob env1) patterns = map (glob_glob env2) patterns ->
  Forall (fun f => outcome env1 f = outcome env2 f) (candidates env1) ->
  run env1 = run env2.
Proof.
  intros Hglob Hagree.
  assert (Hm : matched env1 = matched env2).
  { unfold matched. rewrite !flat_map_concat_map. now rewrite Hglob. }
  assert (Hc : candidates env1 = candidates env2).
  { unfold candidates. now rewrite Hm. }
  pose proof (run_unfold env1) as H1. pose proof (run_unfold env2) as H2.
  cbv zeta in H1, H2. rewrite H1, H2. clear H1 H2.
  rewrite <- Hm, <- Hc.
  rewrite <- (for_in_ext env1 env2 (matched env1) Hagree).
  rewrite <- (existsb_agree (fun f => not_started (outcome env1 f))
                            (fun f => not_started (outcome env2 f))).
  2:{ eapply Forall_impl; [|exact Hagree]. intros f ->. reflexivity. }
  rewrite <- (existsb_agree (fun f => violation (outcome env1 f))
                            (fun f => violation (outcome env2 f))).
  2:{ eapply Forall_impl; [|exact Hagree]. intros f ->. reflexivity. }
  reflexivity.
Qed.

End LintGofmtFacts.

(** ** More on the loop: where it stops and what it cannot see *)

Module LoopFacts.
Import Py2 Py2Facts LintGofmt Spec LintGofmtFacts.

Lemma until_oserror_stop (env : Env) (pre post : list string) (f : string) :
  existsb (fun g => not_started (outcome env g)) pre = false ->
  not_started (outcome env f) = true ->
  until_oserror env (pre ++ f :: post) = pre ++ [f].
Proof.
  intros Hpre Hf. induction pre as [|g pre IH]; simpl.
  - now destruct (outcome env f).
  - simpl in Hpre. apply orb_false_iff in Hpre as [Hg Hpre].
    destruct (outcome env g); [|discriminate]. now rewrite IH.
Qed.

Lemma no_listed_no_report (env : Env) (fs : list string) :
  existsb (fun f => listed (outcome env f)) fs = false ->
  reports env fs = [].
Proof.
  induction fs as [|f fs IH]; simpl; [reflexivity|].
  intros H. apply orb_false_iff in H as [Hf Hfs].
  unfold reports in *. simpl. rewrite IH by assumption.
  unfold report. unfold listed in Hf.
  destruct (outcome env f) as [rc out|]; [|reflexivity]. now rewrite Hf.
Qed.

Lemma reports_app (env : Env) (fs gs : list string) :
  reports env (fs ++ gs) = reports env fs ++ reports env gs.
Proof. unfold reports. apply flat_map_app. Qed.

(** One iteration is the same in two worlds the script cannot tell apart. *)
Lemma check_same_to_script (env1 env2 : Env) (f : string) (st : Z) (ss : bool) :
  same_to_script (outcome env1 f) (outcome env2 f) ->
  check f st env1 ss = check f st env2 ss.
Proof.
  intros Hsame. rewrite !check_unfold. destruct (is_go f); [|reflexivity].
  destruct Hsame as [->|[H1 H2]]; [reflexivity|].
  destruct (outcome env1 f) as [rc1 out1|]; [|discriminate].
  destruct (outcome env2 f) as [rc2 out2|]; [|discriminate].
  simpl in H1, H2. apply negb_true_iff in H1, H2. now rewrite H1, H2.
Qed.

Lemma for_in_same_to_script (env1 env2 : Env) (fs : list string) :
  Forall (fun f => same_to_script (outcome env1 f) (outcome env2 f)) fs ->
  forall st ss,
    for_in fs check st env1 ss = for_in fs check st env2 ss.
Proof.
  induction 1 as [|f fs Hf Hfs IH]; intros st ss; [reflexivity|].
  rewrite !for_in_cons, (check_same_to_script env1 env2 f st ss Hf).
  destruct (check f st env2 ss) as [[l1 ss1] [st1|e]]; [|reflexivity].
  now rewrite IH.
Qed.

Lemma same_to_script_verdict (r1 r2 : ProcessResult) :
  same_to_script r1 r2 ->
  not_started r1 = not_started r2 /\ violation r1 = violation r2.
Proof.
  intros [->|[H1 H2]]; [easy|].
  destruct r1, r2; try discriminate. unfold violation, abnormal.
  rewrite H1, H2. simpl. now rewrite !orb_true_r.
Qed.

Lemma run_same_to_script (env1 env2 : Env) :
  map (glob_glob env1) patterns = map (glob_glob env2) patterns ->
  Forall (fun f => same_to_script (outcome env1 f) (outcome env2 f))
         (matched env1) ->
  run env1 = run env2.
Proof.
  intros Hglob Hsame.
  assert (Hm : matched env1 = matched env2).
  { unfold matched. rewrite !flat_map_concat_map. now rewrite Hglob. }
  assert (Hc : candidates env1 = candidates env2).
  { unfold candidates. now rewrite Hm. }
  assert (Hcs : Forall (fun f => same_to_script (outcome env1 f)
                                                (outcome env2 f))
                       (candidates env1)).
  { apply Forall_forall. intros f Hf. apply filter_In in Hf as [Hf _].
    rewrite Forall_forall in Hsame. now apply Hsame. }
  pose proof (run_unfold env1) as H1. pose proof (run_unfold env2) as H2.
  cbv zeta in H1, H2. rewrite H1, H2. clear H1 H2.
  rewrite <- Hm, <- Hc.
  rewrite <- (for_in_same_to_script env1 env2 (matched env1) Hsame).
  rewrite <- (existsb_agree (fun f => not_started (outcome env1 f))
                            (fun f => not_started (outcome env2 f))).
  2:{ eapply Forall_impl; [|exact Hcs]. intros f Hf.
      now apply same_to_script_verdict. }
  rewrite <- (existsb_agree (fun f => violation (outcome env1 f))
                            (fun f => violation (outcome env2 f))).
  2:{ eapply Forall_impl; [|exact Hcs]. intros f Hf.
      now apply same_to_script_verdict. }
  reflexivity.
Qed.

Lemma count_occ_filter (p : string -> bool) (l : list string) (x : string) :
  count_occ string_dec (filter p l) x =
  if p x then count_occ string_dec l x else 0%nat.
Proof.
  induction l as [|y l IH]; simpl; [now destruct (p x)|].
  destruct (p y) eqn:Hy; simpl; destruct (string_dec y x) as [->|Hne];
    rewrite IH; try reflexivity.
  - now rewrite Hy.
  - now rewrite Hy.
Qed.

End LoopFacts.

(** ** What is printed, and what the order of the files changes *)

Module ReportFacts.
Import Py2 Py2Facts LintGofmt Spec LintGofmtFacts LoopFacts.




(** Every string in the writes of the loop is a listing or the space. *)
Lemma in_writes (outs : list string) :
  forall ss x, In x (writes ss outs) -> x = " "%string \/ In x outs.
Proof.
  induction outs as [|o outs IH]; intros ss x Hx; [contradiction Hx|].
  simpl in Hx. apply in_app_or in Hx as [Hx|[<-|Hx]].
  - left. destruct ss; [|contradiction Hx].
    destruct Hx as [<-|[]]. reflexivity.
  - right. now left.
  - destruct (IH _ _ Hx) as [->|Hin]; [now left | right; now right].
Qed.

(** Up to order, the writes for the listings, with the space that a pending
    flag puts before the next item, are those of each listing on its own. *)
Lemma writes_perm (outs : list string) :
  forall ss,
    Permutation
      (writes ss outs
       ++ (if softspace_end ss outs then [" "%string] else []))
      ((if ss then [" "%string] else []) ++ flat_map listing_writes outs).
Proof.
  induction outs as [|o outs IH]; intros ss; simpl.
  - rewrite app_nil_r. apply Permutation_refl.
  - rewrite <- !app_assoc. apply Permutation_app_head. simpl.
    apply perm_skip. apply IH.
Qed.

Lemma Permutation_filter {A} (p : A -> bool) (l l' : list A) :
  Permutation l l' -> Permutation (filter p l) (filter p l').
Proof.
  induction 1 as [|x l l' H IH|x y l|l l' l'' H1 IH1 H2 IH2]; simpl.
  - apply perm_nil.
  - destruct (p x); [now apply perm_skip | assumption].
  - destruct (p x), (p y); try apply Permutation_refl. apply perm_swap.
  - now apply Permutation_trans with (filter p l').
Qed.

Lemma reports_agree (env1 env2 : Env) (fs : list string) :
  Forall (fun f => outcome env1 f = outcome env2 f) fs ->
  reports env1 fs = reports env2 fs.
Proof.
  induction 1 as [|f fs Hf Hfs IH]; [reflexivity|].
  unfold reports in *. simpl. rewrite IH. f_equal.
  unfold report. now rewrite Hf.
Qed.

Lemma existsb_perm {A} (p : A -> bool) (l l' : list A) :
  Permutation l l' -> existsb p l = existsb p l'.
Proof.
  induction 1 as [|x l l' H IH|x y l|l l' l'' H1 IH1 H2 IH2]; simpl.
  - reflexivity.
  - now rewrite IH.
  - now destruct (p x), (p y).
  - now rewrite IH1.
Qed.

(** A run depends on the globs through the candidates only. *)
Lemma run_same_candidates (env1 env2 : Env) :
  candidates env1 = candidates env2 ->
  Forall (fun f => outcome env1 f = outcome env2 f) (candidates env1) ->
  run env1 = run env2.
Proof.
  intros Hc Hagree.
  pose proof (run_unfold env1) as H1. pose proof (run_unfold env2) as H2.
  cbv zeta in H1, H2. rewrite H1, H2. clear H1 H2.
  rewrite (for_in_candidates env1 (matched env1)).
  rewrite (for_in_candidates env2 (matched env2)).
  fold (candidates env1). fold (candidates env2). rewrite <- Hc.
  rewrite <- (for_in_same_to_script env1 env2 (candidates env1)).
  2:{ eapply Forall_impl; [|exact Hagree]. intros f Hf. now left. }
  rewrite <- (existsb_agree (fun f => not_started (outcome env1 f))
                            (fun f => not_started (outcome env2 f))).
  2:{ eapply Forall_impl; [|exact Hagree]. intros f ->. reflexivity. }
  rewrite <- (existsb_agree (fun f => violation (outcome env1 f))
                            (fun f => violation (outcome env2 f))).
  2:{ eapply Forall_impl; [|exact Hagree]. intros f ->. reflexivity. }
  reflexivity.
Qed.

Lemma filter_without (f : string) (l : list string) :
  is_go f = false ->
  filter is_go (filter (fun g => negb (String.eqb g f)) l) = filter is_go l.
Proof.
  intros Hgo. induction l as [|g l IH]; simpl; [reflexivity|].
  destruct (String.eqb_spec g f) as [->|Hne]; simpl.
  - now rewrite Hgo.
  - now rewrite IH.
Qed.

Lemma candidates_without (env : Env) (f : string) :
  is_go f = false -> candidates (without_path env f) = candidates env.
Proof.
  intros Hgo. unfold candidates, matched, patterns. simpl.
  rewrite !app_nil_r, !filter_app. now rewrite !filter_without.
Qed.

(** [gofmt -s -l f] is harmless when [f] is not taken as a flag. *)
Lemma gofmt_spawn_harmless (f : string) :
  taken_as_flag f = false -> may_write (Spawn (gofmt_argv f)) = false.
Proof.
  intros Hf. unfold may_write, gofmt_argv. cbn [forallb].
  unfold harmless_arg at 3. rewrite Hf. reflexivity.
Qed.

End ReportFacts.

(** ** The properties of the script *)

Import Py2 Py2Facts LintGofmt Spec Examples LintGofmtFacts LoopFacts.
Import ReportFacts.

(** A pointwise equation over a list that computes. *)
Ltac all_in_list :=
  vm_compute; repeat (apply Forall_cons; [reflexivity|]); apply Forall_nil.

(** Membership in a list that computes. *)
Ltac in_list :=
  vm_compute; repeat (first [left; reflexivity | right]).

(** The scenarios of the specification, run. *)
Example scenario_one_clean_file :
  let r := run (world ["foo.go"] [] [] (Exited 0 EmptyString)) in
  stdout_of (log r) = success_line /\ ending r = Exit 0.
Proof. split; reflexivity. Qed.

Example scenario_one_listed_file :
  let r := run (world ["foo.go"] []
                      [("foo.go", Exited 0 (line "foo.go"))]
                      (Exited 0 EmptyString)) in
  stdout_of (log r) = (line "foo.go" ++ remediation_line)%string
  /\ ending r = Exit 1.
Proof. split; reflexivity. Qed.

Example scenario_two_files_one_listed :
  let r := run (world ["ok.go"; "foo.go"] []
                      [("foo.go", Exited 0 (line "foo.go"))]
                      (Exited 0 EmptyString)) in
  stdout_of (log r) = (line "foo.go" ++ remediation_line)%string
  /\ contains (stdout_of (log r)) "ok.go" = false
  /\ ending r = Exit 1.
Proof. repeat split; reflexivity. Qed.

Example scenario_tool_missing :
  run env_no_tool =
  {| log := [Glob "*.go"; Glob "cmd/dbmate/*.go"; Spawn (gofmt_argv "a.go");
             Traceback OSError];
     ending := Uncaught OSError |}.
Proof. reflexivity. Qed.

(** C1: the exit code of a run is non-zero exactly when some candidate
    file's check completes with a non-empty output or ends abnormally (an
    error status, or a command that cannot be started); when no candidate
    does, the exit code is 0. *)
Theorem exit_code_nonzero_iff_violation (env : Env) :
  (exit_code (run env) <> 0 <->
   exists f, In f (candidates env)
             /\ (listed (outcome env f) = true
                 \/ abnormal (outcome env f) = true))
  /\ (~ (exists f, In f (candidates env)
                   /\ (listed (outcome env f) = true
                       \/ abnormal (outcome env f) = true)) ->
      exit_code (run env) = 0).
Proof.
  assert (Hiff : existsb (fun f => violation (outcome env f)) (candidates env)
                 = true <->
                 exists f, In f (candidates env)
                           /\ (listed (outcome env f) = true
                               \/ abnormal (outcome env f) = true)).
  { rewrite existsb_exists. unfold violation.
    split; intros [f [Hin Hf]]; exists f; split; try assumption.
    - now apply orb_true_iff.
    - now apply orb_true_iff. }
  rewrite exit_code_eq.
  destruct (existsb (fun f => violation (outcome env f)) (candidates env)).
  - split.
    + split; [intros _; now apply Hiff | intros _; lia].
    + intros Hno. exfalso. apply Hno. now apply Hiff.
  - split.
    + split; [intros H; now contradiction H|].
      intros H. apply Hiff in H. discriminate.
    + reflexivity.
Qed.

(** C6: when the patterns match no file, no check command is started, the
    run prints the line [All files pass gofmt.] and nothing else, and it
    leaves with status 0. *)
Theorem no_match_passes (env : Env) :
  matched env = [] ->
  spawned (log (run env)) = []
  /\ stdout_of (log (run env)) = ("All files pass gofmt." ++ nl)%string
  /\ ending (run env) = Exit 0
  /\ exit_code (run env) = 0.
Proof.
  intros Hm.
  assert (Hc : candidates env = []) by (unfold candidates; now rewrite Hm).
  repeat split.
  - now rewrite run_spawned, Hc.
  - now rewrite run_stdout, Hc.
  - pose proof (run_unfold env) as H. cbv zeta in H. rewrite H, Hc.
    reflexivity.
  - now rewrite exit_code_eq, Hc.
Qed.

Lemma no_match_passes_witness :
  matched env_empty = []
  /\ spawned (log (run env_empty)) = []
  /\ stdout_of (log (run env_empty)) = ("All files pass gofmt." ++ nl)%string
  /\ ending (run env_empty) = Exit 0
  /\ exit_code (run env_empty) = 0.
Proof.
  split; [reflexivity | apply (no_match_passes env_empty); reflexivity].
Defined.

(** C9: a run that fails and ends by the script's own [exit] leaves with
    status 1, however many files violate. *)
Theorem failing_exit_code_is_one (env : Env) (c : Z) :
  ending (run env) = Exit c ->
  exit_code (run env) <> 0 ->
  exit_code (run env) = 1.
Proof.
  intros _. rewrite exit_code_eq.
  destruct (existsb _ _); [reflexivity | intros H; now contradiction H].
Qed.

Lemma failing_exit_code_is_one_witness :
  ending (run env_mixed) = Exit 1 /\ exit_code (run env_mixed) = 1.
Proof.
  split; [reflexivity|].
  apply (failing_exit_code_is_one env_mixed 1); [reflexivity|].
  vm_compute. lia.
Defined.

(** C10: a run that ends by the script's own [exit] writes exactly one
    terminal line after what the loop printed for the listings: when the
    status is not 0 the writes to standard output are those of the listings
    followed by the remediation line and nothing more; when it is 0 they are
    the success line and nothing else.  So, unless a listing is itself one
    of the two messages, the remediation message is written exactly when the
    exit code is not 0 and the success message exactly when it is 0. *)
Theorem exactly_one_terminal_line (env : Env) (c : Z) :
  ending (run env) = Exit c ->
  ((c <> 0
    /\ stdout_writes (log (run env)) =
         writes false (reports env (candidates env))
         ++ (if softspace_end false (reports env (candidates env))
             then [" "%string] else [])
         ++ [remediation; nl])
   \/ (c = 0 /\ stdout_writes (log (run env)) = [success; nl]))
  /\ (~ In remediation (reports env (candidates env)) ->
      ~ In success (reports env (candidates env)) ->
      (In remediation (stdout_writes (log (run env))) <-> c <> 0)
      /\ (In success (stdout_writes (log (run env))) <-> c = 0)).
Proof.
  rewrite run_writes. pose proof (run_unfold env) as H. cbv zeta in H.
  rewrite H. clear H. cbv zeta.
  destruct (existsb (fun f => not_started (outcome env f)) (candidates env))
    eqn:Hns; [discriminate|].
  rewrite (until_oserror_all _ _ Hns).
  destruct (existsb (fun f => violation (outcome env f)) (candidates env));
    cbn [ending]; intros [= <-].
  - split; [left; split; [lia | reflexivity]|].
    intros Hr Hs. split.
    + split; [intros _; lia|]. intros _.
      apply in_or_app. right. apply in_or_app. right. now left.
    + split; [|intros Hc; discriminate Hc]. intros Hin. exfalso.
      apply in_app_or in Hin as [Hin|Hin].
      * apply in_writes in Hin as [Hin|Hin];
          [vm_compute in Hin; discriminate Hin | now apply Hs].
      * apply in_app_or in Hin as [Hin|Hin].
        -- destruct (softspace_end false _); [|contradiction Hin].
           destruct Hin as [Hin|[]]. vm_compute in Hin. discriminate Hin.
        -- destruct Hin as [Hin|[Hin|[]]]; vm_compute in Hin;
             discriminate Hin.
  - split; [right; split; reflexivity|].
    intros _ _. split.
    + split; [|intros Hc; now contradiction Hc]. intros Hin. exfalso.
      destruct Hin as [Hin|[Hin|[]]]; vm_compute in Hin; discriminate Hin.
    + split; [reflexivity | intros _; now left].
Qed.

Lemma exactly_one_terminal_line_witness :
  ending (run env_mixed) = Exit 1
  /\ stdout_writes (log (run env_mixed)) =
       [line "util.go"; line "cmd/dbmate/main.go"; remediation; nl]
  /\ ~ In success (stdout_writes (log (run env_mixed)))
  /\ stdout_writes (log (run env_clean)) = [success; nl]
  /\ ~ In remediation (stdout_writes (log (run env_clean))).
Proof.
  split; [reflexivity|].
  destruct (exactly_one_terminal_line env_mixed 1 eq_refl) as [H1 H2].
  destruct H1 as [[_ H1]|[H1 _]]; [|discriminate H1].
  split; [exact H1|].
  destruct H2 as [_ H2].
  { vm_compute. intuition discriminate. }
  { vm_compute. intuition discriminate. }
  split; [intros Hin; apply H2 in Hin; discriminate Hin|].
  destruct (exactly_one_terminal_line env_clean 0 eq_refl) as [H3 H4].
  destruct H3 as [[H3 _]|[_ H3]]; [now contradiction H3|].
  split; [exact H3|].
  destruct H4 as [H4 _]; [intros [] | intros [] |].
  intros Hin. apply H4 in Hin. now contradiction Hin.
Defined.

(** C2, as stated, fails twice: a check that cannot be started ends the run
    before the remediation line is printed, and [print out,] puts a space
    before the next item when a listing does not end its line. *)
Lemma report_as_stated_fails :
  ~ report_as_stated env_launch_failure /\ ~ report_as_stated env_no_newline.
Proof.
  unfold report_as_stated. split; intros [H _];
    (destruct H as (_ & _ & H);
     [ exists "a.go"%string; split; [in_list | reflexivity]
     | vm_compute in H; discriminate H ]).
Qed.

(** C2, amended: in a run in which the check command can be started on every
    candidate, when some check completes with a non-empty output the exit
    code is 1, every such output is in the printed output as it is, and the
    printed output is these outputs in order, each followed by the space of
    the [print] statement when it does not end in a whitespace character
    other than the space, then the remediation line; when every such output
    ends its line, it is their concatenation followed by the remediation
    line.  A run with exit code 0 prints the success line and nothing
    else. *)
Theorem listings_then_remediation (env : Env) :
  existsb (fun f => not_started (outcome env f)) (candidates env) = false ->
  ((exists f, In f (candidates env) /\ listed (outcome env f) = true) ->
   exit_code (run env) = 1
   /\ (forall out, In out (reports env (candidates env)) ->
         contains (stdout_of (log (run env))) out = true)
   /\ stdout_of (log (run env)) =
        (printed false (reports env (candidates env))
         ++ (if softspace_end false (reports env (candidates env))
             then " " else EmptyString)
         ++ remediation_line)%string
   /\ (forallb (fun o => negb (softspace_after o))
               (reports env (candidates env)) = true ->
       stdout_of (log (run env)) =
         (concat_all (reports env (candidates env))
          ++ remediation_line)%string))
  /\ (exit_code (run env) = 0 -> stdout_of (log (run env)) = success_line).
Proof.
  intros Hns. rewrite run_stdout, exit_code_eq. cbv zeta.
  rewrite Hns, (until_oserror_all _ _ Hns).
  split.
  - intros [f [Hin Hf]].
    assert (Hv : existsb (fun f => violation (outcome env f)) (candidates env)
                 = true).
    { apply existsb_exists. exists f. split; [assumption|].
      unfold violation. now rewrite Hf. }
    rewrite Hv. split; [reflexivity|]. split; [|split].
    + intros out Hout. now apply printed_contains.
    + reflexivity.
    + intros Hlines. destruct (printed_lines _ Hlines) as [-> ->].
      reflexivity.
  - destruct (existsb (fun f => violation (outcome env f)) (candidates env));
      [discriminate | reflexivity].
Qed.

Lemma listings_then_remediation_witness :
  exit_code (run env_mixed) = 1
  /\ contains (stdout_of (log (run env_mixed))) (line "util.go") = true
  /\ stdout_of (log (run env_mixed)) =
       (line "util.go" ++ line "cmd/dbmate/main.go" ++ remediation_line)%string
  /\ stdout_of (log (run env_clean)) = success_line.
Proof.
  destruct (listings_then_remediation env_mixed eq_refl) as [H _].
  destruct H as (H1 & H2 & _ & H4).
  { exists "util.go"%string. split; [in_list | reflexivity]. }
  split; [exact H1|]. split.
  - apply H2. in_list.
  - split; [exact (H4 eq_refl)|].
    apply (listings_then_remediation env_clean eq_refl). reflexivity.
Defined.

(** C3, as stated, fails when the check command cannot be started: the run
    stops at the first file and the second one is never checked. *)
Lemma all_checked_once_fails : ~ all_checked_once env_no_tool.
Proof. unfold all_checked_once. vm_compute. discriminate. Qed.

(** What the code does there: the first check that cannot be started ends
    the run with an uncaught [OSError], after the files up to it. *)
Lemma launch_failure_stops_the_run (env : Env) :
  existsb (fun f => not_started (outcome env f)) (candidates env) = true ->
  ending (run env) = Uncaught OSError
  /\ exit_code (run env) = 1
  /\ spawned (log (run env)) =
       map gofmt_argv (until_oserror env (candidates env)).
Proof.
  intros Hns. split; [|split].
  - pose proof (run_unfold env) as H. cbv zeta in H. now rewrite H, Hns.
  - rewrite exit_code_eq. now rewrite (not_started_violation _ _ Hns).
  - apply run_spawned.
Qed.

(** C3, amended: in a run in which the check command can be started on every
    candidate, the command is run once per candidate, in order, whatever
    the earlier checks gave; a check that exits with an error status makes
    the run fail with exit code 1 and the files after it are still checked.
    When no path is matched twice, every candidate is checked exactly
    once. *)
Theorem error_status_does_not_stop_the_run (env : Env) :
  existsb (fun f => not_started (outcome env f)) (candidates env) = false ->
  spawned (log (run env)) = map gofmt_argv (candidates env)
  /\ (forall f, In f (candidates env) ->
                error_status (outcome env f) = true ->
                exit_code (run env) = 1)
  /\ (NoDup (candidates env) ->
      forall f, In f (candidates env) ->
                count_occ argv_dec (spawned (log (run env))) (gofmt_argv f)
                = 1%nat).
Proof.
  intros Hns.
  assert (Hs : spawned (log (run env)) = map gofmt_argv (candidates env))
    by (now rewrite run_spawned, (until_oserror_all _ _ Hns)).
  split; [exact Hs|]. split.
  - intros f Hin Hf. rewrite exit_code_eq.
    replace (existsb _ _) with true; [reflexivity|].
    symmetry. apply existsb_exists. exists f. split; [assumption|].
    unfold violation, abnormal. rewrite Hf. now rewrite orb_true_r.
  - intros Hnd f Hin. rewrite Hs.
    rewrite <- (count_occ_map gofmt_argv string_dec argv_dec).
    + now apply NoDup_count_occ'.
    + intros x y [= ->]. reflexivity.
Qed.

Lemma error_status_does_not_stop_the_run_witness :
  spawned (log (run env_mixed)) =
    [gofmt_argv "main.go"; gofmt_argv "util.go"; gofmt_argv "bad.go";
     gofmt_argv "cmd/dbmate/main.go"]
  /\ error_status (outcome env_mixed "bad.go") = true
  /\ exit_code (run env_mixed) = 1
  /\ count_occ argv_dec (spawned (log (run env_mixed)))
               (gofmt_argv "cmd/dbmate/main.go") = 1%nat.
Proof.
  destruct (error_status_does_not_stop_the_run env_mixed eq_refl)
    as (H1 & H2 & H3).
  split; [exact H1|]. split; [reflexivity|]. split.
  - apply (H2 "bad.go"%string); [in_list | reflexivity].
  - apply H3.
    + vm_compute. repeat constructor; simpl; intuition discriminate.
    + in_list.
Defined.




(** C5: a matched path that does not end in [.go] is never handed to the
    check command, and it leaves no trace in the run: the effects, the
    printed output and the ending are those of the run in which the globs
    do not give that path, and they are the same whatever the check command
    would have given on it. *)
Theorem other_paths_leave_no_trace (env : Env) (f : string) :
  In f (matched env) ->
  is_go f = false ->
  ~ In (gofmt_argv f) (spawned (log (run env)))
  /\ run (without_path env f) = run env
  /\ forall r, run (with_outcome env f r) = run env.
Proof.
  intros _ Hgo. split; [|split].
  - rewrite run_spawned. intros Hin. apply in_map_iff in Hin as [g [Hg Hin]].
    injection Hg as ->. apply until_oserror_incl in Hin.
    apply filter_In in Hin as [_ Hin]. congruence.
  - apply run_same_candidates; [now apply candidates_without|].
    apply Forall_forall. intros g _. reflexivity.
  - intros r. apply run_ext; [reflexivity|].
    apply Forall_forall. intros g Hg.
    change (candidates (with_outcome env f r)) with (candidates env) in Hg.
    apply filter_In in Hg as [_ Hg].
    unfold outcome, with_outcome. cbn [run_process argv_eqb gofmt_argv].
    destruct (String.eqb_spec g f) as [->|Hne]; [congruence|].
    reflexivity.
Qed.

Lemma other_paths_leave_no_trace_witness :
  In "UTIL.GO"%string (matched env_upper_case)
  /\ is_go "UTIL.GO" = false
  /\ ~ In (gofmt_argv "UTIL.GO") (spawned (log (run env_upper_case)))
  /\ run (without_path env_upper_case "UTIL.GO") = run env_upper_case
  /\ run (with_outcome env_upper_case "UTIL.GO" ExecFailed)
     = run env_upper_case
  /\ contains (stdout_of (log (run env_upper_case))) "UTIL.GO" = false.
Proof.
  split; [in_list|]. split; [reflexivity|].
  destruct (other_paths_leave_no_trace env_upper_case "UTIL.GO")
    as (H1 & H2 & H3); [in_list | reflexivity |].
  split; [exact H1|]. split; [exact H2|]. split; [apply H3 | reflexivity].
Defined.

(** C7, as stated, fails: with the same two files globbed in the other
    order, the check that cannot be started comes first and the listing of
    the other file, printed in the first run, is not printed at all. *)
Lemma rerun_as_stated_fails :
  ~ rerun_as_stated env_launch_failure env_launch_failure_reordered.
Proof.
  unfold rerun_as_stated. intros H.
  destruct H as [_ H]; [all_in_list | vm_compute; apply perm_swap |].
  vm_compute in H. apply Permutation_length in H. discriminate H.
Qed.

(** C7, amended: two runs over the same matched paths, in whatever order
    the globs give them, and with the same behaviour of the check command
    on the candidates, have the same exit code.  When the check command can
    be started on every candidate they end the same way and write the same
    strings to standard output up to order, followed by the same terminal
    line.  When the globs give the paths in the same order, the runs are
    the same in everything. *)
Theorem same_files_same_report (env1 env2 : Env) :
  Forall (fun f => outcome env1 f = outcome env2 f) (candidates env1) ->
  Permutation (matched env1) (matched env2) ->
  exit_code (run env1) = exit_code (run env2)
  /\ (existsb (fun f => not_started (outcome env1 f)) (candidates env1)
      = false ->
      ending (run env1) = ending (run env2)
      /\ exists body1 body2 last,
           stdout_writes (log (run env1)) = body1 ++ [last; nl]
           /\ stdout_writes (log (run env2)) = body2 ++ [last; nl]
           /\ Permutation body1 body2)
  /\ (map (glob_glob env1) patterns = map (glob_glob env2) patterns ->
      run env1 = run env2).
Proof.
  intros Hagree Hperm.
  assert (Hpc : Permutation (candidates env1) (candidates env2))
    by (now apply Permutation_filter).
  assert (Hv : existsb (fun f => violation (outcome env1 f)) (candidates env1)
               = existsb (fun f => violation (outcome env2 f))
                         (candidates env2)).
  { rewrite <- (existsb_perm _ _ _ Hpc). apply existsb_agree.
    eapply Forall_impl; [|exact Hagree]. intros f ->. reflexivity. }
  assert (Hn : existsb (fun f => not_started (outcome env1 f))
                       (candidates env1)
               = existsb (fun f => not_started (outcome env2 f))
                         (candidates env2)).
  { rewrite <- (existsb_perm _ _ _ Hpc). apply existsb_agree.
    eapply Forall_impl; [|exact Hagree]. intros f ->. reflexivity. }
  split; [now rewrite !exit_code_eq, Hv|]. split.
  - intros Hns1. assert (Hns2 := Hns1). rewrite Hn in Hns2. split.
    + pose proof (run_unfold env1) as H1. pose proof (run_unfold env2) as H2.
      cbv zeta in H1, H2. rewrite H1, H2, Hns1, Hns2, Hv.
      now destruct (existsb _ (candidates env2)).
    + rewrite !run_writes. cbv zeta. rewrite Hns1, Hns2, Hv.
      rewrite (until_oserror_all _ _ Hns1), (until_oserror_all _ _ Hns2).
      destruct (existsb (fun f => violation (outcome env2 f))
                        (candidates env2)).
      * exists (writes false (reports env1 (candidates env1))
                ++ (if softspace_end false (reports env1 (candidates env1))
                    then [" "%string] else [])),
               (writes false (reports env2 (candidates env2))
                ++ (if softspace_end false (reports env2 (candidates env2))
                    then [" "%string] else [])),
               remediation.
        rewrite <- !app_assoc. split; [reflexivity|].
        split; [reflexivity|].
        eapply Permutation_trans; [apply writes_perm|].
        eapply Permutation_trans; [|apply Permutation_sym, writes_perm].
        apply Permutation_app_head.
        rewrite (reports_agree env1 env2 _ Hagree).
        unfold reports. now rewrite Hpc.
      * exists [], [], success. repeat split. apply perm_nil.
  - intros Hglob. now apply run_ext.
Qed.

Lemma same_files_same_report_witness :
  exit_code (run env_two_listed) = exit_code (run env_two_listed_reordered)
  /\ ending (run env_two_listed) = ending (run env_two_listed_reordered)
  /\ stdout_writes (log (run env_two_listed)) =
       [line "a.go"; line "c.go"; remediation; nl]
  /\ stdout_writes (log (run env_two_listed_reordered)) =
       [line "c.go"; line "a.go"; remediation; nl]
  /\ (exists body1 body2 last,
        stdout_writes (log (run env_two_listed)) = body1 ++ [last; nl]
        /\ stdout_writes (log (run env_two_listed_reordered)) =
             body2 ++ [last; nl]
        /\ Permutation body1 body2)
  /\ run env_two_listed
     = run (with_outcome env_two_listed "other.go" ExecFailed).
Proof.
  destruct (same_files_same_report env_two_listed env_two_listed_reordered)
    as (H1 & H2 & _).
  { all_in_list. }
  { vm_compute.
    apply (Permutation_cons_app ["c.go"; "b.go"]%string []). apply perm_swap. }
  destruct (H2 eq_refl) as [H3 H4].
  split; [exact H1|]. split; [exact H3|].
  split; [reflexivity|]. split; [reflexivity|]. split; [exact H4|].
  apply (same_files_same_report
           env_two_listed
           (with_outcome env_two_listed "other.go" ExecFailed));
    [all_in_list | apply Permutation_refl | reflexivity].
Defined.

(** C8, as stated, fails: the pattern [*.go] matches a file named
    [-cpuprofile=main.go], the name passes the suffix test and is handed to
    [gofmt] as a bare argument, which [gofmt] takes as the flag that creates
    [main.go]. *)
Lemma read_only_as_stated_fails : ~ read_only_as_stated env_flag_name.
Proof.
  unfold read_only_as_stated. intros H. rewrite Forall_forall in H.
  specialize (H (Spawn (gofmt_argv "-cpuprofile=main.go"))).
  assert (Hw : may_write (Spawn (gofmt_argv "-cpuprofile=main.go")) = false)
    by (apply H; in_list).
  vm_compute in Hw. discriminate Hw.
Qed.

(** C8, amended: every effect of a run is a glob of one of the two patterns,
    the start of [gofmt -s -l] on one candidate file, a write to standard
    output or the traceback of the uncaught [OSError]: the script itself
    opens and writes no file and never passes [-w].  When no candidate's
    name begins with a dash, [gofmt] takes no argument but [-s] and [-l] as
    a flag, and no effect of the run can change a file. *)
Theorem script_effects_read_only (env : Env) :
  Forall (expected_effect env) (log (run env))
  /\ (forallb (fun f => negb (taken_as_flag f)) (candidates env) = true ->
      Forall (fun e => may_write e = false) (log (run env))).
Proof.
  assert (Hexp : Forall (expected_effect env) (log (run env))).
  { pose proof (run_unfold env) as H. cbv zeta in H. rewrite H. clear H.
    pose proof (loop_effects env (matched env) 0 false) as Hl.
    fold (candidates env) in Hl.
    assert (Hloop : Forall (expected_effect env)
                      (fst (fst (for_in (matched env) check 0 env false)))).
    { eapply Forall_impl; [|exact Hl]. intros [p|argv|t|ex]; try easy. }
    assert (Hglobs : Forall (expected_effect env)
                            [Glob "*.go"; Glob "cmd/dbmate/*.go"]).
    { repeat (apply Forall_cons; [in_list|]). apply Forall_nil. }
    destruct (existsb (fun f => not_started (outcome env f)) (candidates env));
      [|destruct (existsb (fun f => violation (outcome env f))
                          (candidates env))];
      cbn [log]; repeat (apply Forall_app; split); try assumption;
      try (destruct (snd (fst (for_in (matched env) check 0 env false))));
      repeat constructor. }
  split; [exact Hexp|].
  intros Hnames. eapply Forall_impl; [|exact Hexp].
  intros [p|argv|t|ex]; try reflexivity.
  intros [f [Hin ->]]. apply gofmt_spawn_harmless.
  rewrite forallb_forall in Hnames. specialize (Hnames f Hin).
  now apply negb_true_iff in Hnames.
Qed.

Lemma script_effects_read_only_witness :
  Forall (expected_effect env_mixed) (log (run env_mixed))
  /\ Forall (fun e => may_write e = false) (log (run env_mixed))
  /\ In (Spawn (gofmt_argv "bad.go")) (log (run env_mixed)).
Proof.
  destruct (script_effects_read_only env_mixed) as [H1 H2].
  split; [exact H1|]. split; [exact (H2 eq_refl) | in_list].
Defined.

(** ** Further properties of the script *)

(** X1: when the check command cannot be started on a candidate and could be
    on those before it, the run stops there: the command was tried on the
    candidates up to that one and on no later one, the run ends with the
    traceback of the uncaught [OSError] and exit code 1, and what the
    earlier checks listed has been printed. *)
Theorem launch_failure_ends_the_run
  (env : Env) (pre post : list string) (f : string) :
  candidates env = pre ++ f :: post ->
  existsb (fun g => not_started (outcome env g)) pre = false ->
  not_started (outcome env f) = true ->
  spawned (log (run env)) = map gofmt_argv (pre ++ [f])
  /\ ending (run env) = Uncaught OSError
  /\ exit_code (run env) = 1
  /\ (exists l, log (run env) = l ++ [Traceback OSError])
  /\ (forall out, In out (reports env pre) ->
                  contains (stdout_of (log (run env))) out = true).
Proof.
  intros Hc Hpre Hf.
  assert (Hns : existsb (fun g => not_started (outcome env g)) (candidates env)
                = true).
  { rewrite Hc, existsb_app. simpl. rewrite Hf. now rewrite orb_true_r. }
  assert (Hu : until_oserror env (candidates env) = pre ++ [f])
    by (rewrite Hc; now apply until_oserror_stop).
  split; [now rewrite run_spawned, Hu|].
  pose proof (run_unfold env) as H. cbv zeta in H. rewrite Hns in H.
  split; [now rewrite H|]. split; [now rewrite H|]. split.
  - rewrite H. cbn [log]. eexists. rewrite !app_assoc. reflexivity.
  - intros out Hout. rewrite run_stdout. cbv zeta. rewrite Hns, Hu.
    apply printed_contains. rewrite reports_app. apply in_or_app. now left.
Qed.

Lemma launch_failure_ends_the_run_witness :
  candidates env_launch_failure = ["a.go"] ++ "b.go" :: []
  /\ spawned (log (run env_launch_failure)) =
       [gofmt_argv "a.go"; gofmt_argv "b.go"]
  /\ ending (run env_launch_failure) = Uncaught OSError
  /\ contains (stdout_of (log (run env_launch_failure))) (line "a.go") = true.
Proof.
  split; [reflexivity|].
  destruct (launch_failure_ends_the_run env_launch_failure
              ["a.go"%string] [] "b.go" eq_refl eq_refl eq_refl)
    as (H1 & H2 & _ & _ & H5).
  split; [exact H1|]. split; [exact H2|]. apply H5. in_list.
Defined.

(** X2: when every check can be started, none lists anything and some check
    exits with an error status, the run prints the remediation line and
    nothing else, and leaves with status 1: no file is named. *)
Theorem error_status_names_no_file (env : Env) :
  existsb (fun f => not_started (outcome env f)) (candidates env) = false ->
  existsb (fun f => listed (outcome env f)) (candidates env) = false ->
  existsb (fun f => error_status (outcome env f)) (candidates env) = true ->
  stdout_of (log (run env)) = remediation_line
  /\ ending (run env) = Exit 1.
Proof.
  intros Hns Hl He.
  assert (Hv : existsb (fun f => violation (outcome env f)) (candidates env)
               = true).
  { apply existsb_exists in He as [f [Hin Hf]]. apply existsb_exists.
    exists f. split; [assumption|]. unfold violation, abnormal.
    rewrite Hf. now rewrite orb_true_r. }
  split.
  - rewrite run_stdout. cbv zeta.
    rewrite Hns, Hv, (until_oserror_all _ _ Hns), (no_listed_no_report _ _ Hl).
    reflexivity.
  - pose proof (run_unfold env) as H. cbv zeta in H. now rewrite H, Hns, Hv.
Qed.

Lemma error_status_names_no_file_witness :
  outcome env_error_only "bad.go" = Exited 2 (line "bad.go")
  /\ stdout_of (log (run env_error_only)) = remediation_line
  /\ ending (run env_error_only) = Exit 1.
Proof.
  split; [reflexivity|].
  apply (error_status_names_no_file env_error_only); reflexivity.
Defined.

(** X3: of a check that exits with an error status the script uses nothing
    but the fact: with any other error status and any other output on that
    file, the run is the same. *)
Theorem error_status_details_are_dropped
  (env : Env) (f : string) (rc : Z) (out : string) :
  error_status (outcome env f) = true ->
  rc <> 0 ->
  run (with_outcome env f (Exited rc out)) = run env.
Proof.
  intros Hf Hrc. apply run_same_to_script; [reflexivity|].
  apply Forall_forall. intros g _.
  unfold outcome at 1. unfold with_outcome.
  cbn [run_process argv_eqb gofmt_argv].
  destruct (String.eqb_spec g f) as [->|Hne].
  - right. split; [|exact Hf]. simpl. apply negb_true_iff.
    now apply Z.eqb_neq.
  - left. reflexivity.
Qed.

Lemma error_status_details_are_dropped_witness :
  run (with_outcome env_mixed "bad.go" (Exited 1 (line "bad.go")))
  = run env_mixed.
Proof.
  apply (error_status_details_are_dropped env_mixed "bad.go" 1);
    [reflexivity | lia].
Defined.

(** X4: when every check can be started, the check command is run on a path
    exactly when the globs matched it and it is some string followed by
    [.go], character for character. *)
Theorem checked_iff_go_suffix (env : Env) (f : string) :
  existsb (fun g => not_started (outcome env g)) (candidates env) = false ->
  (In (gofmt_argv f) (spawned (log (run env)))
   <-> In f (matched env) /\ exists p, f = (p ++ ".go")%string).
Proof.
  intros Hns. rewrite run_spawned, (until_oserror_all _ _ Hns).
  unfold candidates. rewrite <- (endswith_iff f ".go"). split.
  - intros H. apply in_map_iff in H as [g [Hg Hin]].
    injection Hg as ->. now apply filter_In in Hin.
  - intros H. apply in_map. now apply filter_In.
Qed.

Lemma checked_iff_go_suffix_witness :
  In (gofmt_argv "cmd/dbmate/main.go") (spawned (log (run env_upper_case)))
  /\ ~ In (gofmt_argv "UTIL.GO") (spawned (log (run env_upper_case))).
Proof.
  split.
  - apply (checked_iff_go_suffix env_upper_case "cmd/dbmate/main.go" eq_refl).
    split; [in_list | now exists "cmd/dbmate/main"%string].
  - intros H.
    apply (checked_iff_go_suffix env_upper_case "UTIL.GO" eq_refl) in H
      as [_ [p Hp]].
    apply (f_equal (fun s => endswith s ".go")) in Hp.
    rewrite endswith_app in Hp by (simpl; lia). discriminate Hp.
Defined.

(** X5: every run starts with the two globs, in the order of the patterns,
    and globs nothing afterwards: the files to check are fixed before the
    first check. *)
Theorem globs_come_first (env : Env) :
  exists rest,
    log (run env) = Glob "*.go" :: Glob "cmd/dbmate/*.go" :: rest
    /\ forallb (fun e => negb (is_glob e)) rest = true.
Proof.
  pose proof (run_unfold env) as H. cbv zeta in H. rewrite H. clear H.
  pose proof (loop_effects env (matched env) 0 false) as Hl.
  assert (Hloop : forallb (fun e => negb (is_glob e))
                    (fst (fst (for_in (matched env) check 0 env false)))
                  = true).
  { apply forallb_forall. rewrite Forall_forall in Hl. intros e He.
    specialize (Hl e He). now destruct e. }
  destruct (existsb (fun f => not_started (outcome env f)) (candidates env));
    [|destruct (existsb (fun f => violation (outcome env f))
                        (candidates env))];
    cbn [log app]; eexists; (split; [reflexivity|]);
    rewrite !forallb_app, Hloop;
    destruct (snd (fst (for_in (matched env) check 0 env false)));
    reflexivity.
Qed.

(** X6: the script does not remove duplicates: when every check can be
    started, the check command is run on a path ending in [.go] as many
    times as the globs matched it. *)
Theorem checked_as_often_as_matched (env : Env) (f : string) :
  existsb (fun g => not_started (outcome env g)) (candidates env) = false ->
  is_go f = true ->
  count_occ argv_dec (spawned (log (run env))) (gofmt_argv f)
  = count_occ string_dec (matched env) f.
Proof.
  intros Hns Hgo. rewrite run_spawned, (until_oserror_all _ _ Hns).
  rewrite <- (count_occ_map gofmt_argv string_dec argv_dec).
  - unfold candidates. now rewrite count_occ_filter, Hgo.
  - intros x y [= ->]. reflexivity.
Qed.

Lemma checked_as_often_as_matched_witness :
  count_occ argv_dec (spawned (log (run env_matched_twice)))
            (gofmt_argv "a.go") = 2%nat.
Proof.
  rewrite (checked_as_often_as_matched env_matched_twice "a.go" eq_refl
             eq_refl).
  reflexivity.
Defined.
